(** * convert_spv.py: SPIR-V bytes to a C array initialiser

    A shallow embedding of [src/app/convert_spv.py] and the properties of
    its output.

    Conventions of the embedding.
    - A Python [bytes] object is a [list byte]; iterating over it yields the
      integers [Byte.to_N b], each below 256.
    - A Python [str] is a [string]; all text the program writes to the
      destination is ASCII.
    - The text file object [f] of the second [with] block is its buffer:
      [f.write(s)] appends [s].  The buffer reaches the file when the block
      closes the file.  The file is opened with the defaults of
      [open(path, 'w')]; the model takes a platform on which a line feed is
      written as it is and an ASCII character is encoded as one byte.
    - The file system is a finite map from paths to nodes; an [open] that
      the operating system refuses raises [OSError]. *)

From Stdlib Require Import NArith ZArith Lia List ZifyNat.
From Stdlib.Strings Require Import Ascii String Byte.
From stdpp Require Import base option list strings gmap fin_maps.
Import ListNotations.

(** ** Formatting: [f'{byte:02x}'] *)

Module Fmt.

(** The digit characters of the presentation type ['x']. *)
Definition hex_alphabet : string := "0123456789abcdef".

Definition hex_digit (d : N) : ascii :=
  match String.get (N.to_nat d) hex_alphabet with
  | Some c => c
  | None => "0"%char
  end.

(** [format(n, 'x')]: the digits of [n] in base 16, most significant first,
    without a prefix; [fuel] bounds the number of digits. *)
Fixpoint hex_digits (fuel : nat) (n : N) (acc : string) : string :=
  match fuel with
  | O => acc
  | S fuel' =>
      let acc' := String (hex_digit (n mod 16)) acc in
      if (n / 16 =? 0)%N then acc' else hex_digits fuel' (n / 16) acc'
  end.

Definition format_x (n : N) : string :=
  hex_digits (S (N.to_nat (N.log2 n))) n "".

(** Zero fill on the left up to [width] characters (the [0] flag). *)
Fixpoint zeros (k : nat) : string :=
  match k with
  | O => ""
  | S k' => String "0" (zeros k')
  end.

Definition zero_pad (width : nat) (s : string) : string :=
  zeros (width - String.length s) +:+ s.

(** [format(n, '02x')] *)
Definition format_02x (n : N) : string := zero_pad 2 (format_x n).

End Fmt.

(** ** The loop of [convert_spv_to_inl] *)

(** An open text file, seen through what has been written to it. *)
Definition textfile := string.

Definition f_write (f : textfile) (s : string) : textfile := f +:+ s.

Definition NL : ascii := ascii_of_nat 10.

(** The literal ['\n    ']. *)
Definition newline_indent : string := String NL "    ".

(** The value of [f'0x{byte:02x}, ']. *)
Definition token (byte : byte) : string :=
  "0x" +:+ Fmt.format_02x (Byte.to_N byte) +:+ ", ".

(** [for i, byte in enumerate(data): ...], started at index [i]. *)
Fixpoint for_enumerate (i : nat) (data : list byte) (f : textfile) : textfile :=
  match data with
  | [] => f
  | byte :: data' =>
      let f1 := if (i mod 12 =? 0)%nat then f_write f newline_indent else f in
      let f2 := f_write f1 (token byte) in
      for_enumerate (S i) data' f2
  end.

(** The text a run writes through a freshly opened destination. *)
Definition inl_text (data : list byte) : string := for_enumerate 0 data "".


(** ** Files, standard output and exceptions *)

Inductive errno := ENOENT | EACCES | EISDIR | EIO.

Inductive exn :=
  | OSError (e : errno)
  | IndexError
  | SystemExit (code : Z).

Record perm := Perm { may_read : bool; may_write : bool }.

Inductive node :=
  | RegFile (p : perm) (content : list byte)
  | Directory.

Inductive open_mode := ModeRB | ModeW.

(** What the program asked of the file system, oldest first. *)
Inductive event :=
  | EvOpen (path : string) (m : open_mode) (refused : option errno)
  | EvRead (path : string)
  | EvWrite (path : string) (bytes : list byte)
  | EvClose (path : string).

(** [creat path] tells whether a file may be created at a path that has no
    node yet: [None] when it may, the error otherwise (a missing or
    read-only parent directory). *)
Record world := World {
  fs : gmap string node;
  creat : string -> option errno;
  stdout : string;
  trace : list event
}.

Definition set_fs (m : gmap string node) (w : world) : world :=
  {| fs := m; creat := creat w; stdout := stdout w; trace := trace w |}.

Definition add_event (e : event) (w : world) : world :=
  {| fs := fs w; creat := creat w; stdout := stdout w; trace := trace w ++ [e] |}.

Definition add_stdout (s : string) (w : world) : world :=
  {| fs := fs w; creat := creat w; stdout := stdout w +:+ s; trace := trace w |}.

(** A computation either raises or returns, and leaves a world behind. *)
Definition M (A : Type) : Type := world -> (exn + A) * world.

Definition ret {A} (a : A) : M A := fun w => (inr a, w).

Definition raise {A} (e : exn) : M A := fun w => (inl e, w).

Definition bind {A B} (m : M A) (k : A -> M B) : M B :=
  fun w =>
    match m w with
    | (inl e, w') => (inl e, w')
    | (inr a, w') => k a w'
    end.

Notation "x <- m ;; k" := (bind m (fun x => k))
  (at level 100, m at next level, right associativity).
Notation "m ;;; k" := (bind m (fun _ => k))
  (at level 100, right associativity).

(** [try: body finally: cleanup], the shape of a [with] block. *)
Definition finally {A} (body : M A) (cleanup : M unit) : M A :=
  fun w =>
    match body w with
    | (inl e, w1) =>
        match cleanup w1 with
        | (inl e', w2) => (inl e', w2)
        | (inr _, w2) => (inl e, w2)
        end
    | (inr a, w1) =>
        match cleanup w1 with
        | (inl e', w2) => (inl e', w2)
        | (inr _, w2) => (inr a, w2)
        end
    end.

Definition emit (e : event) : M unit := fun w => (inr tt, add_event e w).

(** The bytes a text file receives for a string of ASCII characters. *)
Definition encode (s : string) : list byte := list_byte_of_string s.

Definition default_perm : perm := Perm true true.

(** [open(path, 'rb')] *)
Definition open_rb (path : string) : M unit :=
  fun w =>
    match fs w !! path with
    | Some (RegFile p _) =>
        if may_read p then (inr tt, add_event (EvOpen path ModeRB None) w)
        else (inl (OSError EACCES), add_event (EvOpen path ModeRB (Some EACCES)) w)
    | Some Directory =>
        (inl (OSError EISDIR), add_event (EvOpen path ModeRB (Some EISDIR)) w)
    | None =>
        (inl (OSError ENOENT), add_event (EvOpen path ModeRB (Some ENOENT)) w)
    end.

(** [f.read()] on a file opened with [open_rb] *)
Definition read_all (path : string) : M (list byte) :=
  fun w =>
    match fs w !! path with
    | Some (RegFile _ content) => (inr content, add_event (EvRead path) w)
    | _ => (inl (OSError EIO), add_event (EvRead path) w)
    end.

Definition close (path : string) : M unit := emit (EvClose path).

(** [open(path, 'w')]: an existing file is cut to length zero, a missing
    one is created empty. *)
Definition open_w (path : string) : M unit :=
  fun w =>
    match fs w !! path with
    | Some (RegFile p _) =>
        if may_write p
        then (inr tt, add_event (EvOpen path ModeW None)
                        (set_fs (<[path := RegFile p []]> (fs w)) w))
        else (inl (OSError EACCES), add_event (EvOpen path ModeW (Some EACCES)) w)
    | Some Directory =>
        (inl (OSError EISDIR), add_event (EvOpen path ModeW (Some EISDIR)) w)
    | None =>
        match creat w path with
        | None =>
            (inr tt, add_event (EvOpen path ModeW None)
                       (set_fs (<[path := RegFile default_perm []]> (fs w)) w))
        | Some e => (inl (OSError e), add_event (EvOpen path ModeW (Some e)) w)
        end
    end.

(** The buffer of a text file reaches the file. *)
Definition flush (path : string) (f : textfile) : M unit :=
  fun w =>
    match fs w !! path with
    | Some (RegFile p old) =>
        (inr tt, add_event (EvWrite path (encode f))
                   (set_fs (<[path := RegFile p (old ++ encode f)]> (fs w)) w))
    | _ => (inl (OSError EIO), add_event (EvWrite path (encode f)) w)
    end.

(** [with open(path, 'rb') as f: data = f.read()] *)
Definition with_open_rb_read (path : string) : M (list byte) :=
  open_rb path ;;; finally (read_all path) (close path).

(** [with open(path, 'w') as f: body], for a body that only writes to [f]. *)
Definition with_open_w (path : string) (body : textfile -> textfile) : M unit :=
  open_w path ;;; finally (flush path (body "")) (close path).

(** [print(s)] *)
Definition print (s : string) : M unit :=
  fun w => (inr tt, add_stdout (s +:+ String NL "") w).

(** [sys.exit(code)] *)
Definition sys_exit {A} (code : Z) : M A := raise (SystemExit code).

(** ** The program *)

Definition convert_spv_to_inl (spv_file inl_file : string) : M unit :=
  data <- with_open_rb_read spv_file ;;
  with_open_w inl_file (for_enumerate 0 data).

(** [sys.argv[i]] *)
Definition argv_get (argv : list string) (i : nat) : M string :=
  match argv !! i with
  | Some s => ret s
  | None => raise IndexError
  end.

(** The body under [if __name__ == '__main__':]. *)
Definition main (argv : list string) : M unit :=
  (if negb (length argv =? 3)%nat then
     a0 <- argv_get argv 0 ;;
     print ("Usage: " +:+ a0 +:+ " <input.spv> <output.inl>") ;;;
     sys_exit 1
   else ret tt) ;;;
  a1 <- argv_get argv 1 ;;
  a2 <- argv_get argv 2 ;;
  convert_spv_to_inl a1 a2 ;;;
  b1 <- argv_get argv 1 ;;
  b2 <- argv_get argv 2 ;;
  print ("Converted " +:+ b1 +:+ " to " +:+ b2).

(** The exit status of the interpreter: 0 when the script ends, the code of
    [SystemExit], 1 for any other uncaught exception. *)
Definition exit_status (r : exn + unit) : Z :=
  match r with
  | inr _ => 0
  | inl (SystemExit code) => code
  | inl _ => 1
  end.

Definition run_script (argv : list string) (w : world) : Z * world :=
  let (r, w') := main argv w in (exit_status r, w').

(** ** Observing a run *)

(** The bytes [open(path, 'rb')] followed by [read()] would deliver. *)
Definition source_bytes (w : world) (path : string) : option (list byte) :=
  match fs w !! path with
  | Some (RegFile p content) => if may_read p then Some content else None
  | _ => None
  end.

(** Whether [open(path, 'w')] would be granted. *)
Definition dest_ok (w : world) (path : string) : bool :=
  match fs w !! path with
  | Some (RegFile p _) => may_write p
  | Some Directory => false
  | None => match creat w path with None => true | Some _ => false end
  end.

Definition file_bytes (w : world) (path : string) : option (list byte) :=
  match fs w !! path with
  | Some (RegFile _ content) => Some content
  | _ => None
  end.

(** The permissions of the file that [open(path, 'w')] opens. *)
Definition dest_perm (w : world) (path : string) : perm :=
  match fs w !! path with
  | Some (RegFile p _) => p
  | _ => default_perm
  end.

(** The destination after a run of [convert_spv_to_inl] that returned. *)
Definition output_bytes (w : world) (spv_file inl_file : string)
  : option (list byte) :=
  match convert_spv_to_inl spv_file inl_file w with
  | (inr _, w') => file_bytes w' inl_file
  | (inl _, _) => None
  end.

(** The same, read back as text. *)
Definition output_text (w : world) (spv_file inl_file : string)
  : option string :=
  string_of_list_byte <$> output_bytes w spv_file inl_file.

(** The world [w] with a regular file of content [c] at [path]. *)
Definition with_content (w : world) (path : string) (p : perm)
           (c : list byte) : world :=
  set_fs (<[path := RegFile p c]> (fs w)) w.

(** ** The output format, as the specification words it *)

Module Spec.

(** A lowercase hexadecimal digit character for a value below 16. *)
Definition lower_hex (d : N) : ascii :=
  ascii_of_N (if (d <? 10)%N then 48 + d else 87 + d).

Definition is_lower_hex (c : ascii) : bool :=
  let n := N_of_ascii c in
  ((48 <=? n) && (n <=? 57) || (97 <=? n) && (n <=? 102))%N.

(** [0x], two lowercase digits, a comma and one space. *)
Definition token_of (v : N) : string :=
  String "0" (String "x"
    (String (lower_hex (v / 16)) (String (lower_hex (v mod 16)) ", "))).

(** Whether six characters match [0x[0-9a-f]{2}, ]. *)
Definition is_token (c0 c1 c2 c3 c4 c5 : ascii) : bool :=
  Ascii.eqb c0 "0" && Ascii.eqb c1 "x" && is_lower_hex c2 && is_lower_hex c3
  && Ascii.eqb c4 "," && Ascii.eqb c5 " ".

(** All matches of the token pattern in a text, left to right. *)
Fixpoint scan_tokens (s : string) : list string :=
  match s with
  | EmptyString => []
  | String c0 s1 =>
      match s1 with
      | String c1 (String c2 (String c3 (String c4 (String c5 rest)))) =>
          if is_token c0 c1 c2 c3 c4 c5
          then String c0 (String c1 (String c2 (String c3 (String c4 (String c5 "")))))
               :: scan_tokens rest
          else scan_tokens s1
      | _ => scan_tokens s1
      end
  end.

(** Where token [i] starts: six characters for each earlier token and five
    for each line started so far. *)
Definition token_offset (i : nat) : nat := 6 * i + 5 * (i / 12 + 1).

(** Whether the five characters that end at [pos] are a newline and four
    spaces. *)
Definition indent_before (s : string) (pos : nat) : bool :=
  (5 <=? pos)%nat && String.eqb (substring (pos - 5) 5 s) newline_indent.

Fixpoint count_char (c : ascii) (s : string) : nat :=
  match s with
  | EmptyString => 0
  | String c' s' => (if Ascii.eqb c c' then 1 else 0) + count_char c s'
  end.

(** *** Reading the output back *)

Definition is_separator (c : ascii) : bool :=
  Ascii.eqb c NL || Ascii.eqb c " " || Ascii.eqb c ",".

(** The maximal runs of characters that are not separators; [cur] is the
    run being read. *)
Fixpoint fields_from (s : string) (cur : string) : list string :=
  match s with
  | EmptyString => if String.eqb cur "" then [] else [cur]
  | String c s' =>
      if is_separator c
      then (if String.eqb cur "" then fields_from s' ""
            else cur :: fields_from s' "")
      else fields_from s' (cur +:+ String c "")
  end.

Definition fields (s : string) : list string := fields_from s "".

Definition hex_value (c : ascii) : option N :=
  let n := N_of_ascii c in
  if ((48 <=? n) && (n <=? 57))%N then Some (n - 48)%N
  else if ((97 <=? n) && (n <=? 102))%N then Some (n - 87)%N
  else if ((65 <=? n) && (n <=? 70))%N then Some (n - 55)%N
  else None.

Fixpoint hex_number (s : string) (acc : N) : option N :=
  match s with
  | EmptyString => Some acc
  | String c s' =>
      match hex_value c with
      | Some d => hex_number s' (16 * acc + d)%N
      | None => None
      end
  end.

(** The value of a literal [0x] followed by at least one digit. *)
Definition parse_hex_literal (s : string) : option N :=
  match s with
  | String c0 (String c1 (String c2 rest)) =>
      if Ascii.eqb c0 "0" && Ascii.eqb c1 "x"
      then hex_number (String c2 rest) 0
      else None
  | _ => None
  end.

Definition byte_of_literal (s : string) : option byte :=
  match parse_hex_literal s with
  | Some n => Byte.of_N n
  | None => None
  end.

(** Strip newlines, spaces and commas, and turn every literal into a byte. *)
Definition read_back (s : string) : option (list byte) :=
  mapM byte_of_literal (fields s).

End Spec.

(** ** A sample file system *)

(** A shader of thirteen bytes (it begins with the SPIR-V magic number), a
    file of one zero byte, an empty file, an earlier output, and a file that
    may not be read. *)
Definition demo_fs : gmap string node :=
  <["shader.spv" := RegFile default_perm
      [x03; x02; x23; x07; x00; x00; x01; x00; x0b; x00; x0d; x00; xff]]>
  (<["zero.spv" := RegFile default_perm [x00]]>
  (<["empty.spv" := RegFile default_perm []]>
  (<["old.inl" := RegFile default_perm [x6f; x6c; x64]]>
  (<["locked.spv" := RegFile (Perm false true) [x01]]> ∅)))).

Definition demo_world : world :=
  {| fs := demo_fs; creat := fun _ => None; stdout := ""; trace := [] |}.

Definition demo_shader : list byte :=
  [x03; x02; x23; x07; x00; x00; x01; x00; x0b; x00; x0d; x00; xff].

(** ** Further observations *)

(** The tokens of a run of bytes, one after the other. *)
Fixpoint concat_tokens (data : list byte) : string :=
  match data with
  | [] => ""
  | b :: data' => token b +:+ concat_tokens data'
  end.

(** Whether every character of a string passes a test. *)
Fixpoint string_forallb (P : ascii -> bool) (s : string) : bool :=
  match s with
  | EmptyString => true
  | String c s' => P c && string_forallb P s'
  end.

(** Newline, space, comma, [x] and the lowercase hexadecimal digits. *)
Definition output_char (c : ascii) : bool :=
  Ascii.eqb c NL || Ascii.eqb c " " || Ascii.eqb c "," || Ascii.eqb c "x"
  || Spec.is_lower_hex c.

(** Whether a sequence of requests keeps at most one file open at a time:
    [cur] is the file that is open; a granted opening needs that none is, a
    read, a write and a closing need the file they name to be the open one,
    and at the end no file is left open. *)
Fixpoint one_at_a_time (cur : option string) (evs : list event) : bool :=
  match evs with
  | [] => match cur with None => true | Some _ => false end
  | EvOpen path _ None :: evs' =>
      match cur with
      | None => one_at_a_time (Some path) evs'
      | Some _ => false
      end
  | EvOpen _ _ (Some _) :: evs' => one_at_a_time cur evs'
  | EvRead path :: evs' | EvWrite path _ :: evs' =>
      match cur with
      | Some q => String.eqb q path && one_at_a_time cur evs'
      | None => false
      end
  | EvClose path :: evs' =>
      match cur with
      | Some q => String.eqb q path && one_at_a_time None evs'
      | None => false
      end
  end.

(** What the loop writes in front of token [i]. *)
Definition line_start (i : nat) : string :=
  if (i mod 12 =? 0)%nat then newline_indent else "".

Ltac div_lia := zify; Z.div_mod_to_equations; lia.

(** Project the fields of a world built by the primitives. *)
Ltac world_simpl :=
  unfold add_event, set_fs, add_stdout;
  cbn [fs creat stdout trace app].

(** * Properties *)

#[local] Arguments String.append : simpl nomatch.

(** ** Strings *)

Section StringFacts.

Lemma str_app_assoc (a b c : string) : (a +:+ b) +:+ c = a +:+ (b +:+ c).
Proof. induction a as [|x a IH]; simpl; [reflexivity | now rewrite IH]. Qed.

Lemma str_app_nil_r (a : string) : a +:+ "" = a.
Proof. induction a as [|x a IH]; simpl; [reflexivity | now rewrite IH]. Qed.

Lemma str_length_app (a b : string) :
  String.length (a +:+ b) = String.length a + String.length b.
Proof. induction a as [|x a IH]; simpl; [reflexivity | now rewrite IH]. Qed.

Lemma substring_skip (p s : string) (n m : nat) :
  substring (String.length p + n) m (p +:+ s) = substring n m s.
Proof. induction p as [|x p IH]; simpl; [reflexivity | exact IH]. Qed.

Lemma substring_prefix (t s : string) :
  substring 0 (String.length t) (t +:+ s) = t.
Proof.
  induction t as [|x t IH]; simpl.
  - now destruct s.
  - now rewrite IH.
Qed.

Lemma substring_at (p t s : string) :
  substring (String.length p) (String.length t) (p +:+ t +:+ s) = t.
Proof.
  replace (String.length p) with (String.length p + 0) by lia.
  rewrite substring_skip. apply substring_prefix.
Qed.

Lemma count_char_app (c : ascii) (a b : string) :
  Spec.count_char c (a +:+ b) = Spec.count_char c a + Spec.count_char c b.
Proof. induction a as [|x a IH]; simpl; [reflexivity | rewrite IH; lia]. Qed.

End StringFacts.

(** ** Tokens *)

Section TokenFacts.

(** The token the program formats is the token of the specification. *)
Lemma token_spec (b : byte) : token b = Spec.token_of (Byte.to_N b).
Proof. destruct b; reflexivity. Qed.

Lemma token_length (b : byte) : String.length (token b) = 6.
Proof. rewrite token_spec. reflexivity. Qed.

Lemma format_02x_two_digits (b : byte) :
  String.length (Fmt.format_02x (Byte.to_N b)) = 2.
Proof. destruct b; reflexivity. Qed.

Lemma token_no_newline (b : byte) : Spec.count_char NL (token b) = 0.
Proof. destruct b; reflexivity. Qed.

Lemma scan_token (b : byte) (rest : string) :
  Spec.scan_tokens (token b +:+ rest) = token b :: Spec.scan_tokens rest.
Proof. destruct b; reflexivity. Qed.

Lemma scan_newline_indent (rest : string) (b : byte) :
  Spec.scan_tokens (newline_indent +:+ token b +:+ rest)
  = Spec.scan_tokens (token b +:+ rest).
Proof. destruct b; reflexivity. Qed.

Lemma fields_token (b : byte) (rest : string) :
  Spec.fields_from (token b +:+ rest) ""
  = ("0x" +:+ Fmt.format_02x (Byte.to_N b)) :: Spec.fields_from rest "".
Proof. destruct b; reflexivity. Qed.

Lemma fields_newline_indent (rest : string) :
  Spec.fields_from (newline_indent +:+ rest) "" = Spec.fields_from rest "".
Proof. reflexivity. Qed.

Lemma literal_value (b : byte) :
  Spec.byte_of_literal ("0x" +:+ Fmt.format_02x (Byte.to_N b)) = Some b.
Proof. destruct b; reflexivity. Qed.

End TokenFacts.

(** ** The loop *)

Section LoopFacts.

(** Writing goes to the end of the buffer and never reads it. *)
Lemma for_enumerate_buf (data : list byte) :
  forall (i : nat) (f : textfile),
    for_enumerate i data f = f +:+ for_enumerate i data "".
Proof.
  induction data as [|b data IH]; intros i f; cbn [for_enumerate].
  - now rewrite str_app_nil_r.
  - set (c := (i mod 12 =? 0)%nat).
    rewrite (IH (S i) (f_write (if c then f_write f newline_indent else f) _)).
    rewrite (IH (S i) (f_write (if c then f_write "" newline_indent else "") _)).
    unfold f_write. destruct c; rewrite ?str_app_assoc; reflexivity.
Qed.

Lemma for_enumerate_cons (i : nat) (b : byte) (data : list byte) :
  for_enumerate i (b :: data) ""
  = line_start i +:+ token b +:+ for_enumerate (S i) data "".
Proof.
  cbn [for_enumerate]. rewrite for_enumerate_buf. unfold line_start, f_write.
  destruct (i mod 12 =? 0)%nat; rewrite ?str_app_assoc; reflexivity.
Qed.

Lemma for_enumerate_app (d1 : list byte) :
  forall (i : nat) (d2 : list byte),
    for_enumerate i (d1 ++ d2) ""
    = for_enumerate i d1 "" +:+ for_enumerate (i + length d1) d2 "".
Proof.
  induction d1 as [|b d1 IH]; intros i d2.
  - cbn [for_enumerate length app]. now rewrite Nat.add_0_r.
  - change ((b :: d1) ++ d2) with (b :: (d1 ++ d2)).
    rewrite !for_enumerate_cons, IH, !str_app_assoc.
    simpl length. now replace (S i + length d1) with (i + S (length d1)) by lia.
Qed.

Lemma line_start_length (i : nat) :
  String.length (line_start i) = if (i mod 12 =? 0)%nat then 5 else 0.
Proof. unfold line_start. now destruct (i mod 12 =? 0)%nat. Qed.

Lemma for_enumerate_length (data : list byte) :
  forall i : nat,
    String.length (for_enumerate i data "") + 5 * ((i + 11) / 12)
    = 6 * length data + 5 * ((i + length data + 11) / 12).
Proof.
  induction data as [|b data IH]; intros i.
  - cbn [for_enumerate length String.length]. rewrite Nat.add_0_r. lia.
  - rewrite for_enumerate_cons, !str_length_app, token_length, line_start_length.
    specialize (IH (S i)). simpl length.
    destruct (Nat.eqb_spec (i mod 12) 0); div_lia.
Qed.

Lemma for_enumerate_newlines (data : list byte) :
  forall i : nat,
    Spec.count_char NL (for_enumerate i data "") + (i + 11) / 12
    = (i + length data + 11) / 12.
Proof.
  induction data as [|b data IH]; intros i.
  - cbn [for_enumerate length Spec.count_char]. rewrite Nat.add_0_r. lia.
  - rewrite for_enumerate_cons, !count_char_app, token_no_newline.
    specialize (IH (S i)). simpl length. unfold line_start.
    destruct (Nat.eqb_spec (i mod 12) 0); simpl Spec.count_char; div_lia.
Qed.

Lemma for_enumerate_scan (data : list byte) :
  forall i : nat,
    Spec.scan_tokens (for_enumerate i data "") = map token data.
Proof.
  induction data as [|b data IH]; intros i; [reflexivity|].
  rewrite for_enumerate_cons. unfold line_start.
  destruct (i mod 12 =? 0)%nat.
  - rewrite scan_newline_indent, scan_token, IH. reflexivity.
  - change ("" +:+ token b +:+ for_enumerate (S i) data "")
      with (token b +:+ for_enumerate (S i) data "").
    rewrite scan_token, IH. reflexivity.
Qed.

Lemma for_enumerate_fields (data : list byte) :
  forall i : nat,
    Spec.fields_from (for_enumerate i data "") ""
    = map (fun b => "0x" +:+ Fmt.format_02x (Byte.to_N b)) data.
Proof.
  induction data as [|b data IH]; intros i; [reflexivity|].
  rewrite for_enumerate_cons. unfold line_start.
  destruct (i mod 12 =? 0)%nat.
  - rewrite fields_newline_indent, fields_token, IH. reflexivity.
  - change ("" +:+ token b +:+ for_enumerate (S i) data "")
      with (token b +:+ for_enumerate (S i) data "").
    rewrite fields_token, IH. reflexivity.
Qed.

End LoopFacts.

(** ** Runs of [convert_spv_to_inl] *)

Section RunFacts.

Lemma read_source_ok (w : world) (path : string) (data : list byte) :
  source_bytes w path = Some data ->
  with_open_rb_read path w
  = (inr data,
     add_event (EvClose path)
       (add_event (EvRead path) (add_event (EvOpen path ModeRB None) w))).
Proof.
  unfold source_bytes, with_open_rb_read, bind, open_rb, finally, read_all,
    close, emit.
  destruct (fs w !! path) as [[p c|]|] eqn:E; try discriminate.
  destruct (may_read p); try discriminate.
  intros [= ->]. cbn [fs add_event]. rewrite E. reflexivity.
Qed.

Lemma read_source_refused (w : world) (path : string) :
  source_bytes w path = None ->
  exists e : errno,
    with_open_rb_read path w
    = (inl (OSError e), add_event (EvOpen path ModeRB (Some e)) w).
Proof.
  unfold source_bytes, with_open_rb_read, bind, open_rb.
  destruct (fs w !! path) as [[p c|]|] eqn:E.
  - destruct (may_read p); [discriminate|]. intros _. now exists EACCES.
  - intros _. now exists EISDIR.
  - intros _. now exists ENOENT.
Qed.

Lemma write_dest_ok (w : world) (path : string) (body : textfile -> textfile) :
  dest_ok w path = true ->
  with_open_w path body w
  = (inr tt,
     {| fs := <[path := RegFile (dest_perm w path) (encode (body ""))]> (fs w);
        creat := creat w;
        stdout := stdout w;
        trace := trace w ++ [EvOpen path ModeW None;
                             EvWrite path (encode (body ""));
                             EvClose path] |}).
Proof.
  unfold dest_ok, with_open_w, bind, open_w, finally, flush, close, emit,
    dest_perm.
  destruct (fs w !! path) as [[p c|]|] eqn:E; try discriminate.
  - intros ->. world_simpl.
    rewrite lookup_insert_eq. world_simpl.
    rewrite insert_insert_eq, <- !app_assoc. reflexivity.
  - destruct (creat w path); [discriminate|]. intros _. world_simpl.
    rewrite lookup_insert_eq. world_simpl.
    rewrite insert_insert_eq, <- !app_assoc. reflexivity.
Qed.

(** A run on a readable source and an openable destination returns, and
    leaves in the destination the encoding of what the loop wrote. *)
Lemma convert_ok (w : world) (spv_file inl_file : string) (data : list byte) :
  source_bytes w spv_file = Some data ->
  dest_ok w inl_file = true ->
  convert_spv_to_inl spv_file inl_file w
  = (inr tt,
     {| fs := <[inl_file := RegFile (dest_perm w inl_file)
                              (encode (inl_text data))]> (fs w);
        creat := creat w;
        stdout := stdout w;
        trace := trace w ++ [EvOpen spv_file ModeRB None;
                             EvRead spv_file;
                             EvClose spv_file;
                             EvOpen inl_file ModeW None;
                             EvWrite inl_file (encode (inl_text data));
                             EvClose inl_file] |}).
Proof.
  intros Hsrc Hdst. unfold convert_spv_to_inl, bind.
  rewrite (read_source_ok _ _ _ Hsrc).
  rewrite write_dest_ok by exact Hdst.
  unfold dest_perm, inl_text. world_simpl.
  rewrite <- !app_assoc. reflexivity.
Qed.

Lemma convert_output_bytes (w : world) (spv_file inl_file : string)
      (data : list byte) :
  source_bytes w spv_file = Some data ->
  dest_ok w inl_file = true ->
  output_bytes w spv_file inl_file = Some (encode (inl_text data)).
Proof.
  intros Hsrc Hdst. unfold output_bytes.
  rewrite (convert_ok _ _ _ _ Hsrc Hdst).
  unfold file_bytes. cbn [fs]. now rewrite lookup_insert_eq.
Qed.

Lemma convert_output_text (w : world) (spv_file inl_file : string)
      (data : list byte) :
  source_bytes w spv_file = Some data ->
  dest_ok w inl_file = true ->
  output_text w spv_file inl_file = Some (inl_text data).
Proof.
  intros Hsrc Hdst. unfold output_text.
  rewrite (convert_output_bytes _ _ _ _ Hsrc Hdst).
  unfold encode. cbn. now rewrite string_of_list_byte_of_string.
Qed.

End RunFacts.

(** ** Where the tokens are *)

Section Layout.

Lemma inl_text_prefix_length (B : list byte) (i : nat) :
  i <= length B ->
  String.length (inl_text (take i B)) = 6 * i + 5 * ((i + 11) / 12).
Proof.
  intros Hi. unfold inl_text.
  pose proof (for_enumerate_length (take i B) 0) as H.
  rewrite length_take in H.
  replace (i `min` length B) with i in H by lia.
  div_lia.
Qed.

(** The output around token [i]. *)
Lemma inl_text_split (B : list byte) (i : nat) (b : byte) :
  B !! i = Some b ->
  inl_text B
  = (inl_text (take i B) +:+ line_start i)
      +:+ token b +:+ for_enumerate (S i) (drop (S i) B) "".
Proof.
  intros Hb. unfold inl_text.
  rewrite <- (take_drop_middle B i b Hb) at 1.
  rewrite for_enumerate_app, for_enumerate_cons, length_take.
  apply lookup_lt_Some in Hb.
  replace (0 + i `min` length B) with i by lia.
  now rewrite !str_app_assoc.
Qed.

Lemma token_start (B : list byte) (i : nat) :
  i < length B ->
  String.length (inl_text (take i B) +:+ line_start i) = Spec.token_offset i.
Proof.
  intros Hi. rewrite str_length_app, inl_text_prefix_length by lia.
  rewrite line_start_length. unfold Spec.token_offset.
  destruct (Nat.eqb_spec (i mod 12) 0); div_lia.
Qed.

Lemma token_at_offset (B : list byte) (i : nat) (b : byte) :
  B !! i = Some b ->
  substring (Spec.token_offset i) 6 (inl_text B) = token b.
Proof.
  intros Hb. rewrite (inl_text_split B i b Hb).
  rewrite <- (token_start B i) by (eapply lookup_lt_Some; eauto).
  rewrite <- (token_length b). apply substring_at.
Qed.

Lemma token_tail_not_indent (b : byte) (rest : string) :
  String.eqb (substring 1 5 (token b +:+ rest)) newline_indent = false.
Proof. destruct b; reflexivity. Qed.

Lemma indent_at_offset (B : list byte) (i : nat) (b : byte) :
  B !! i = Some b ->
  Spec.indent_before (inl_text B) (Spec.token_offset i)
  = (i mod 12 =? 0)%nat.
Proof.
  intros Hb. pose proof (lookup_lt_Some _ _ _ Hb) as Hi.
  unfold Spec.indent_before.
  replace (5 <=? Spec.token_offset i)%nat with true
    by (symmetry; apply Nat.leb_le; unfold Spec.token_offset; lia).
  cbn [andb].
  destruct (Nat.eqb_spec (i mod 12) 0) as [Hz|Hnz].
  - rewrite (inl_text_split B i b Hb). unfold line_start.
    replace (i mod 12 =? 0)%nat with true by (symmetry; now apply Nat.eqb_eq).
    replace (Spec.token_offset i - 5) with (String.length (inl_text (take i B))).
    + rewrite str_app_assoc.
      change 5 with (String.length newline_indent).
      rewrite substring_at. apply String.eqb_refl.
    + rewrite inl_text_prefix_length by lia. unfold Spec.token_offset. div_lia.
  - destruct i as [|j]; [now destruct Hnz|].
    destruct (lookup_lt_is_Some_2 B j) as [b' Hb']; [lia|].
    rewrite (inl_text_split B j b' Hb').
    replace (Spec.token_offset (S j) - 5)
      with (String.length (inl_text (take j B) +:+ line_start j) + 1).
    + rewrite substring_skip. apply token_tail_not_indent.
    + rewrite token_start by lia. unfold Spec.token_offset. div_lia.
Qed.

Lemma inl_text_length (B : list byte) :
  String.length (inl_text B)
  = match length B with
    | O => 0
    | S k => Spec.token_offset k + 6
    end.
Proof.
  pose proof (for_enumerate_length B 0) as H. fold (inl_text B) in H.
  destruct B as [|b B]; [reflexivity|].
  cbn [length] in *. unfold Spec.token_offset. div_lia.
Qed.

Lemma inl_text_newlines (B : list byte) :
  Spec.count_char NL (inl_text B) = (length B + 11) / 12.
Proof.
  pose proof (for_enumerate_newlines B 0) as H. fold (inl_text B) in H.
  div_lia.
Qed.

End Layout.

(** ** The output file *)

Section OutputFile.

Variables (w : world) (spv_file inl_file : string) (B : list byte).
Hypothesis Hsrc : source_bytes w spv_file = Some B.
Hypothesis Hdst : dest_ok w inl_file = true.

(** C1: for every input of N bytes the output holds exactly N tokens, one
    per byte and in file order; the token of a byte of value v is [0x],
    the two lowercase hexadecimal digits of v, a comma and one space, so
    that byte 255 gives [0xff, ]. *)
Theorem tokens_in_file_order :
  exists out : string,
    output_text w spv_file inl_file = Some out
    /\ Spec.scan_tokens out = map (fun b => Spec.token_of (Byte.to_N b)) B
    /\ length (Spec.scan_tokens out) = length B
    /\ token xff = "0xff, ".
Proof.
  exists (inl_text B). split; [now apply convert_output_text|].
  unfold inl_text. rewrite for_enumerate_scan, length_map.
  repeat split. apply map_ext. intros b. apply token_spec.
Qed.

(** C2: a newline and exactly four spaces stand immediately before the
    token of index i if and only if i mod 12 = 0; the output has no other
    newline, and it ends with the last token. *)
Theorem newline_indent_every_12 :
  exists out : string,
    output_text w spv_file inl_file = Some out
    /\ (forall (i : nat) (b : byte),
          B !! i = Some b ->
          substring (Spec.token_offset i) 6 out = Spec.token_of (Byte.to_N b)
          /\ Spec.indent_before out (Spec.token_offset i)
             = (i mod 12 =? 0)%nat)
    /\ Spec.count_char NL out = (length B + 11) / 12
    /\ String.length out
       = match length B with
         | O => 0
         | S k => Spec.token_offset k + 6
         end.
Proof.
  exists (inl_text B). split; [now apply convert_output_text|].
  split; [|split].
  - intros i b Hb. split.
    + rewrite <- token_spec. now apply token_at_offset.
    + now apply indent_at_offset with b.
  - apply inl_text_newlines.
  - apply inl_text_length.
Qed.

(** C3: reading the literals back out of the output, with newlines,
    spaces and commas stripped, gives the input bytes again. *)
Theorem read_back_round_trip :
  exists out : string,
    output_text w spv_file inl_file = Some out
    /\ Spec.read_back out = Some B.
Proof.
  exists (inl_text B). split; [now apply convert_output_text|].
  unfold Spec.read_back, Spec.fields, inl_text.
  rewrite for_enumerate_fields. clear Hsrc Hdst.
  induction B as [|b l IH]; [reflexivity|].
  cbn [map mapM]. rewrite literal_value, IH. reflexivity.
Qed.

End OutputFile.

(** C5: an empty input gives an empty output file, without even the
    leading newline. *)
Theorem empty_input_empty_output (w : world) (spv_file inl_file : string) :
  source_bytes w spv_file = Some [] ->
  dest_ok w inl_file = true ->
  output_bytes w spv_file inl_file = Some []
  /\ output_text w spv_file inl_file = Some ""
  /\ Spec.scan_tokens (inl_text []) = []
  /\ Spec.count_char NL (inl_text []) = 0.
Proof.
  intros Hsrc Hdst.
  rewrite (convert_output_bytes _ _ _ _ Hsrc Hdst).
  rewrite (convert_output_text _ _ _ _ Hsrc Hdst).
  repeat split.
Qed.

(** C6: an input of the single byte 0x00 gives exactly the eleven characters
    newline, four spaces and [0x00, ]. *)
Theorem single_zero_byte (w : world) (spv_file inl_file : string) :
  source_bytes w spv_file = Some [x00] ->
  dest_ok w inl_file = true ->
  output_text w spv_file inl_file = Some (String NL "    0x00, ")
  /\ String.length (String NL "    0x00, ") = 11
  /\ length <$> output_bytes w spv_file inl_file = Some 11.
Proof.
  intros Hsrc Hdst.
  rewrite (convert_output_bytes _ _ _ _ Hsrc Hdst).
  rewrite (convert_output_text _ _ _ _ Hsrc Hdst).
  repeat split.
Qed.

(** C8: the content of the destination is a function of the input bytes
    alone: two runs on the same bytes, in any two worlds and under any
    paths, leave the same bytes in their destinations. *)
Theorem output_determined_by_input
        (w1 w2 : world) (spv1 inl1 spv2 inl2 : string) (B : list byte) :
  source_bytes w1 spv1 = Some B ->
  source_bytes w2 spv2 = Some B ->
  dest_ok w1 inl1 = true ->
  dest_ok w2 inl2 = true ->
  output_bytes w1 spv1 inl1 = output_bytes w2 spv2 inl2
  /\ output_bytes w1 spv1 inl1 = Some (encode (inl_text B)).
Proof.
  intros Hs1 Hs2 Hd1 Hd2.
  rewrite (convert_output_bytes _ _ _ _ Hs1 Hd1).
  rewrite (convert_output_bytes _ _ _ _ Hs2 Hd2).
  split; reflexivity.
Qed.

(** ** What a run leaves alone *)

Section Frame.

Lemma with_open_rb_read_frame (w : world) (path : string) :
  stdout (snd (with_open_rb_read path w)) = stdout w
  /\ fs (snd (with_open_rb_read path w)) = fs w
  /\ creat (snd (with_open_rb_read path w)) = creat w.
Proof.
  unfold with_open_rb_read, bind, open_rb, finally, read_all, close, emit.
  destruct (fs w !! path) as [[q c|]|] eqn:E; [destruct (may_read q)|..];
    world_simpl; rewrite ?E; world_simpl; auto.
Qed.

Lemma with_open_w_stdout (w : world) (path : string)
      (body : textfile -> textfile) :
  stdout (snd (with_open_w path body w)) = stdout w.
Proof.
  unfold with_open_w, bind, open_w, finally, flush, close, emit.
  destruct (fs w !! path) as [[q c|]|] eqn:E;
    [destruct (may_write q)| |destruct (creat w path)];
    world_simpl; rewrite ?lookup_insert_eq; world_simpl; auto.
Qed.

Lemma convert_stdout (w : world) (spv_file inl_file : string) :
  stdout (snd (convert_spv_to_inl spv_file inl_file w)) = stdout w.
Proof.
  unfold convert_spv_to_inl, bind.
  destruct (with_open_rb_read_frame w spv_file) as (Hso & _ & _).
  destruct (with_open_rb_read spv_file w) as [[e|data] w1]; cbn [snd] in *.
  - exact Hso.
  - now rewrite with_open_w_stdout.
Qed.

End Frame.

(** ** The destination before and after *)

(** The claim C9 as it is worded fails for a run in place: the two worlds
    below differ only in what the destination held, the destination being
    the source as well, and the destination ends up different. *)
Lemma destination_content_matters_in_place :
  ~ (forall (w : world) (spv_file inl_file : string) (p : perm)
            (old old' : list byte),
        may_write p = true ->
        output_bytes (with_content w inl_file p old) spv_file inl_file
        = output_bytes (with_content w inl_file p old') spv_file inl_file).
Proof.
  intros H.
  specialize (H demo_world "zero.spv" "zero.spv" default_perm [x00] [xff]
                eq_refl).
  vm_compute in H. discriminate H.
Qed.

(** C9, amended: the destination is opened afresh: what it held is cut away
    when it is opened, and what it holds in the end is the rendering of the
    bytes read from the source.  Putting any other content in the
    destination beforehand changes nothing in the end, as long as the source
    still delivers the same bytes (which it does unless the destination is
    the source itself). *)
Theorem destination_truncated
        (w : world) (spv_file inl_file : string) (p : perm)
        (old B : list byte) :
  fs w !! inl_file = Some (RegFile p old) ->
  may_write p = true ->
  source_bytes w spv_file = Some B ->
  (exists w' : world,
      open_w inl_file w = (inr tt, w') /\ file_bytes w' inl_file = Some [])
  /\ output_bytes w spv_file inl_file = Some (encode (inl_text B))
  /\ (forall old' : list byte,
        source_bytes (with_content w inl_file p old') spv_file = Some B ->
        output_bytes (with_content w inl_file p old') spv_file inl_file
        = output_bytes w spv_file inl_file).
Proof.
  intros Hold Hp Hsrc.
  assert (Hdst : dest_ok w inl_file = true)
    by (unfold dest_ok; now rewrite Hold).
  split; [|split].
  - unfold open_w. rewrite Hold, Hp. eexists. split; [reflexivity|].
    unfold file_bytes. world_simpl. now rewrite lookup_insert_eq.
  - now apply convert_output_bytes.
  - intros old' Hsrc'.
    rewrite (convert_output_bytes _ _ _ _ Hsrc Hdst).
    apply convert_output_bytes; [exact Hsrc'|].
    unfold dest_ok, with_content. world_simpl.
    now rewrite lookup_insert_eq.
Qed.

(** C10: when the source cannot be read, the run raises before the
    destination is touched: the file system is as it was, and the only
    request made of it is the refused opening of the source. *)
Theorem source_failure_leaves_destination
        (w : world) (prog spv_file inl_file : string) :
  source_bytes w spv_file = None ->
  exists (e : errno) (w' : world),
    convert_spv_to_inl spv_file inl_file w = (inl (OSError e), w')
    /\ fs w' = fs w
    /\ trace w' = trace w ++ [EvOpen spv_file ModeRB (Some e)]
    /\ run_script [prog; spv_file; inl_file] w = (1%Z, w').
Proof.
  intros Hsrc. destruct (read_source_refused w spv_file Hsrc) as [e He].
  exists e, (add_event (EvOpen spv_file ModeRB (Some e)) w).
  assert (Hrun : convert_spv_to_inl spv_file inl_file w
                 = (inl (OSError e), add_event (EvOpen spv_file ModeRB (Some e)) w))
    by (unfold convert_spv_to_inl, bind; now rewrite He).
  repeat split; [exact Hrun|].
  unfold run_script, main, bind, argv_get, ret. cbn [length Nat.eqb negb lookup list_lookup].
  now rewrite Hrun.
Qed.

(** ** The command line *)

(** C4: started with a number of arguments other than two, the program
    prints the usage line to standard output and ends with status 1; it
    makes no request of the file system, which is left as it was. *)
Theorem usage_error (w : world) (prog : string) (args : list string) :
  length args <> 2 ->
  exists w' : world,
    run_script (prog :: args) w = (1%Z, w')
    /\ stdout w'
       = stdout w +:+ "Usage: " +:+ prog +:+ " <input.spv> <output.inl>"
           +:+ String NL ""
    /\ fs w' = fs w
    /\ trace w' = trace w.
Proof.
  intros Hlen. unfold run_script, main, bind, argv_get, print, sys_exit, raise, ret.
  destruct (Nat.eqb_spec (length (prog :: args)) 3) as [E|_];
    [cbn [length] in E; lia|].
  cbn [negb lookup list_lookup]. eexists. split; [reflexivity|].
  world_simpl. rewrite !str_app_assoc. repeat split.
Qed.

(** C7: after a conversion that returned, the program prints the line
    [Converted <input-path> to <output-path>] with the two paths of the
    command line, and ends with status 0. *)
Theorem success_message (w w1 : world) (prog spv_file inl_file : string) :
  convert_spv_to_inl spv_file inl_file w = (inr tt, w1) ->
  exists w' : world,
    run_script [prog; spv_file; inl_file] w = (0%Z, w')
    /\ stdout w'
       = stdout w +:+ "Converted " +:+ spv_file +:+ " to " +:+ inl_file
           +:+ String NL ""
    /\ fs w' = fs w1
    /\ trace w' = trace w1.
Proof.
  intros Hrun. pose proof (convert_stdout w spv_file inl_file) as Hso.
  rewrite Hrun in Hso. cbn [snd] in Hso.
  unfold run_script, main, bind, argv_get, print, ret.
  cbn [length Nat.eqb negb lookup list_lookup]. rewrite Hrun.
  eexists. split; [reflexivity|].
  world_simpl. rewrite Hso, !str_app_assoc. repeat split.
Qed.

(** ** Worked examples *)

(** The general formatter pads to two digits and never cuts: only because
    the values come from a [bytes] object are there always exactly two. *)
Example format_02x_samples :
  map Fmt.format_02x [0; 10; 16; 255; 256; 4095]%N
  = ["00"; "0a"; "10"; "ff"; "100"; "fff"].
Proof. reflexivity. Qed.

(** Thirteen bytes 0, 1, ..., 12: a line starts before token 0 and before
    token 12, and before no other token. *)
Example thirteen_bytes :
  let B := [x00; x01; x02; x03; x04; x05; x06; x07; x08; x09; x0a; x0b; x0c] in
  map (fun i => Spec.indent_before (inl_text B) (Spec.token_offset i)) (seq 0 13)
  = [true; false; false; false; false; false; false; false; false; false;
     false; false; true]
  /\ Spec.count_char NL (inl_text B) = 2
  /\ substring (Spec.token_offset 12) 6 (inl_text B) = "0x0c, "
  /\ String.length (inl_text B) = Spec.token_offset 12 + 6.
Proof. vm_compute. repeat split. Qed.

(** The same path as source and destination: the bytes are read before the
    file is cut, and the file ends up holding their rendering. *)
Example convert_in_place :
  output_text demo_world "zero.spv" "zero.spv" = Some (String NL "    0x00, ").
Proof. vm_compute. reflexivity. Qed.

(** A source that may not be read, and a destination that is a directory. *)
Example convert_refused :
  fst (convert_spv_to_inl "locked.spv" "old.inl" demo_world)
  = inl (OSError EACCES)
  /\ fst (convert_spv_to_inl "zero.spv" "dir"
            (set_fs (<["dir" := Directory]> demo_fs) demo_world))
     = inl (OSError EISDIR).
Proof. vm_compute. split; reflexivity. Qed.

(** With an empty [sys.argv] the usage line itself cannot be formatted. *)
Example empty_argv :
  run_script [] demo_world = (1%Z, demo_world).
Proof. reflexivity. Qed.

(** ** The theorems at work on the sample file system *)

Lemma tokens_in_file_order_witness :
  source_bytes demo_world "shader.spv" = Some demo_shader
  /\ dest_ok demo_world "shader.inl" = true
  /\ exists out : string,
      output_text demo_world "shader.spv" "shader.inl" = Some out
      /\ Spec.scan_tokens out
         = map (fun b => Spec.token_of (Byte.to_N b)) demo_shader
      /\ length (Spec.scan_tokens out) = length demo_shader
      /\ token xff = "0xff, ".
Proof.
  assert (Hs : source_bytes demo_world "shader.spv" = Some demo_shader)
    by (vm_compute; reflexivity).
  assert (Hd : dest_ok demo_world "shader.inl" = true)
    by (vm_compute; reflexivity).
  exact (conj Hs (conj Hd (tokens_in_file_order _ _ _ _ Hs Hd))).
Defined.

Lemma newline_indent_every_12_witness :
  source_bytes demo_world "shader.spv" = Some demo_shader
  /\ dest_ok demo_world "shader.inl" = true
  /\ exists out : string,
      output_text demo_world "shader.spv" "shader.inl" = Some out
      /\ (forall (i : nat) (b : byte),
            demo_shader !! i = Some b ->
            substring (Spec.token_offset i) 6 out = Spec.token_of (Byte.to_N b)
            /\ Spec.indent_before out (Spec.token_offset i)
               = (i mod 12 =? 0)%nat)
      /\ Spec.count_char NL out = (length demo_shader + 11) / 12
      /\ String.length out
         = match length demo_shader with
           | O => 0
           | S k => Spec.token_offset k + 6
           end.
Proof.
  assert (Hs : source_bytes demo_world "shader.spv" = Some demo_shader)
    by (vm_compute; reflexivity).
  assert (Hd : dest_ok demo_world "shader.inl" = true)
    by (vm_compute; reflexivity).
  exact (conj Hs (conj Hd (newline_indent_every_12 _ _ _ _ Hs Hd))).
Defined.

Lemma read_back_round_trip_witness :
  source_bytes demo_world "shader.spv" = Some demo_shader
  /\ dest_ok demo_world "shader.inl" = true
  /\ exists out : string,
      output_text demo_world "shader.spv" "shader.inl" = Some out
      /\ Spec.read_back out = Some demo_shader.
Proof.
  assert (Hs : source_bytes demo_world "shader.spv" = Some demo_shader)
    by (vm_compute; reflexivity).
  assert (Hd : dest_ok demo_world "shader.inl" = true)
    by (vm_compute; reflexivity).
  exact (conj Hs (conj Hd (read_back_round_trip _ _ _ _ Hs Hd))).
Defined.

Lemma empty_input_empty_output_witness :
  source_bytes demo_world "empty.spv" = Some []
  /\ dest_ok demo_world "old.inl" = true
  /\ output_bytes demo_world "empty.spv" "old.inl" = Some []
  /\ output_text demo_world "empty.spv" "old.inl" = Some ""
  /\ Spec.scan_tokens (inl_text []) = []
  /\ Spec.count_char NL (inl_text []) = 0.
Proof.
  assert (Hs : source_bytes demo_world "empty.spv" = Some [])
    by (vm_compute; reflexivity).
  assert (Hd : dest_ok demo_world "old.inl" = true)
    by (vm_compute; reflexivity).
  exact (conj Hs (conj Hd (empty_input_empty_output _ _ _ Hs Hd))).
Defined.

Lemma single_zero_byte_witness :
  source_bytes demo_world "zero.spv" = Some [x00]
  /\ dest_ok demo_world "zero.inl" = true
  /\ output_text demo_world "zero.spv" "zero.inl"
     = Some (String NL "    0x00, ")
  /\ String.length (String NL "    0x00, ") = 11
  /\ length <$> output_bytes demo_world "zero.spv" "zero.inl" = Some 11.
Proof.
  assert (Hs : source_bytes demo_world "zero.spv" = Some [x00])
    by (vm_compute; reflexivity).
  assert (Hd : dest_ok demo_world "zero.inl" = true)
    by (vm_compute; reflexivity).
  exact (conj Hs (conj Hd (single_zero_byte _ _ _ Hs Hd))).
Defined.

Lemma output_determined_by_input_witness :
  source_bytes demo_world "zero.spv" = Some [x00]
  /\ source_bytes (with_content demo_world "copy.spv" default_perm [x00])
       "copy.spv" = Some [x00]
  /\ dest_ok demo_world "zero.inl" = true
  /\ dest_ok (with_content demo_world "copy.spv" default_perm [x00])
       "old.inl" = true
  /\ output_bytes demo_world "zero.spv" "zero.inl"
     = output_bytes (with_content demo_world "copy.spv" default_perm [x00])
         "copy.spv" "old.inl"
  /\ output_bytes demo_world "zero.spv" "zero.inl"
     = Some (encode (inl_text [x00])).
Proof.
  assert (H1 : source_bytes demo_world "zero.spv" = Some [x00])
    by (vm_compute; reflexivity).
  assert (H2 : source_bytes
                 (with_content demo_world "copy.spv" default_perm [x00])
                 "copy.spv" = Some [x00])
    by (vm_compute; reflexivity).
  assert (H3 : dest_ok demo_world "zero.inl" = true)
    by (vm_compute; reflexivity).
  assert (H4 : dest_ok (with_content demo_world "copy.spv" default_perm [x00])
                 "old.inl" = true)
    by (vm_compute; reflexivity).
  exact (conj H1 (conj H2 (conj H3 (conj H4
           (output_determined_by_input _ _ _ _ _ _ _ H1 H2 H3 H4))))).
Defined.

Lemma destination_truncated_witness :
  fs demo_world !! "old.inl" = Some (RegFile default_perm [x6f; x6c; x64])
  /\ may_write default_perm = true
  /\ source_bytes demo_world "shader.spv" = Some demo_shader
  /\ (exists w' : world,
        open_w "old.inl" demo_world = (inr tt, w')
        /\ file_bytes w' "old.inl" = Some [])
  /\ output_bytes demo_world "shader.spv" "old.inl"
     = Some (encode (inl_text demo_shader))
  /\ (forall old' : list byte,
        source_bytes (with_content demo_world "old.inl" default_perm old')
          "shader.spv" = Some demo_shader ->
        output_bytes (with_content demo_world "old.inl" default_perm old')
          "shader.spv" "old.inl"
        = output_bytes demo_world "shader.spv" "old.inl").
Proof.
  assert (H1 : fs demo_world !! "old.inl"
               = Some (RegFile default_perm [x6f; x6c; x64]))
    by (vm_compute; reflexivity).
  assert (H2 : may_write default_perm = true) by reflexivity.
  assert (H3 : source_bytes demo_world "shader.spv" = Some demo_shader)
    by (vm_compute; reflexivity).
  exact (conj H1 (conj H2 (conj H3
           (destination_truncated _ _ _ _ _ _ H1 H2 H3)))).
Defined.

Lemma source_failure_leaves_destination_witness :
  source_bytes demo_world "missing.spv" = None
  /\ exists (e : errno) (w' : world),
      convert_spv_to_inl "missing.spv" "old.inl" demo_world
      = (inl (OSError e), w')
      /\ fs w' = fs demo_world
      /\ trace w' = trace demo_world ++ [EvOpen "missing.spv" ModeRB (Some e)]
      /\ run_script ["convert_spv.py"; "missing.spv"; "old.inl"] demo_world
         = (1%Z, w').
Proof.
  assert (H1 : source_bytes demo_world "missing.spv" = None)
    by (vm_compute; reflexivity).
  exact (conj H1 (source_failure_leaves_destination
                    demo_world "convert_spv.py" "missing.spv" "old.inl" H1)).
Defined.

Lemma usage_error_witness :
  length ["shader.spv"] <> 2
  /\ exists w' : world,
      run_script ["convert_spv.py"; "shader.spv"] demo_world = (1%Z, w')
      /\ stdout w'
         = stdout demo_world +:+ "Usage: " +:+ "convert_spv.py"
             +:+ " <input.spv> <output.inl>" +:+ String NL ""
      /\ fs w' = fs demo_world
      /\ trace w' = trace demo_world.
Proof.
  assert (H1 : length ["shader.spv"] <> 2) by (simpl; lia).
  exact (conj H1 (usage_error demo_world "convert_spv.py" ["shader.spv"] H1)).
Defined.

Lemma success_message_witness :
  convert_spv_to_inl "zero.spv" "zero.inl" demo_world
  = (inr tt, snd (convert_spv_to_inl "zero.spv" "zero.inl" demo_world))
  /\ exists w' : world,
      run_script ["convert_spv.py"; "zero.spv"; "zero.inl"] demo_world
      = (0%Z, w')
      /\ stdout w'
         = stdout demo_world +:+ "Converted " +:+ "zero.spv" +:+ " to "
             +:+ "zero.inl" +:+ String NL ""
      /\ fs w' = fs (snd (convert_spv_to_inl "zero.spv" "zero.inl" demo_world))
      /\ trace w'
         = trace (snd (convert_spv_to_inl "zero.spv" "zero.inl" demo_world)).
Proof.
  assert (H1 : convert_spv_to_inl "zero.spv" "zero.inl" demo_world
               = (inr tt,
                  snd (convert_spv_to_inl "zero.spv" "zero.inl" demo_world)))
    by (vm_compute; reflexivity).
  exact (conj H1 (success_message demo_world _ "convert_spv.py"
                    "zero.spv" "zero.inl" H1)).
Defined.

(** * Further properties of the program *)

(** ** Runs that the destination refuses *)

Section Refusals.

Lemma write_dest_refused (w : world) (path : string)
      (body : textfile -> textfile) :
  dest_ok w path = false ->
  exists e : errno,
    with_open_w path body w
    = (inl (OSError e), add_event (EvOpen path ModeW (Some e)) w).
Proof.
  unfold dest_ok, with_open_w, bind, open_w.
  destruct (fs w !! path) as [[p c|]|] eqn:E.
  - intros ->. now exists EACCES.
  - intros _. now exists EISDIR.
  - destruct (creat w path) as [e|]; [|discriminate]. intros _. now exists e.
Qed.

Lemma convert_dest_refused (w : world) (spv_file inl_file : string)
      (data : list byte) :
  source_bytes w spv_file = Some data ->
  dest_ok w inl_file = false ->
  exists e : errno,
    convert_spv_to_inl spv_file inl_file w
    = (inl (OSError e),
       {| fs := fs w; creat := creat w; stdout := stdout w;
          trace := trace w ++ [EvOpen spv_file ModeRB None;
                               EvRead spv_file;
                               EvClose spv_file;
                               EvOpen inl_file ModeW (Some e)] |}).
Proof.
  intros Hsrc Hdst. unfold convert_spv_to_inl, bind.
  rewrite (read_source_ok _ _ _ Hsrc).
  destruct (write_dest_refused
              (add_event (EvClose spv_file)
                 (add_event (EvRead spv_file)
                    (add_event (EvOpen spv_file ModeRB None) w)))
              inl_file (for_enumerate 0 data) Hdst) as [e He].
  exists e. rewrite He. world_simpl. rewrite <- !app_assoc. reflexivity.
Qed.

Lemma convert_source_refused (w : world) (spv_file inl_file : string) :
  source_bytes w spv_file = None ->
  exists e : errno,
    convert_spv_to_inl spv_file inl_file w
    = (inl (OSError e), add_event (EvOpen spv_file ModeRB (Some e)) w).
Proof.
  intros Hsrc. destruct (read_source_refused w spv_file Hsrc) as [e He].
  exists e. unfold convert_spv_to_inl, bind. now rewrite He.
Qed.

Lemma inl_text_read_back (B : list byte) :
  Spec.read_back (inl_text B) = Some B.
Proof.
  unfold Spec.read_back, Spec.fields, inl_text. rewrite for_enumerate_fields.
  induction B as [|b l IH]; [reflexivity|].
  cbn [map mapM]. rewrite literal_value, IH. reflexivity.
Qed.

End Refusals.

(** X1: when the source can be read but the destination cannot be opened
    for writing, the run raises [OSError] after the source has been read
    and closed; no file is created, cut or changed, nothing is printed, and
    the script ends with status 1. *)
Theorem destination_refused_changes_nothing
        (w : world) (prog spv_file inl_file : string) (B : list byte) :
  source_bytes w spv_file = Some B ->
  dest_ok w inl_file = false ->
  exists (e : errno) (w' : world),
    convert_spv_to_inl spv_file inl_file w = (inl (OSError e), w')
    /\ fs w' = fs w
    /\ stdout w' = stdout w
    /\ trace w' = trace w ++ [EvOpen spv_file ModeRB None;
                              EvRead spv_file;
                              EvClose spv_file;
                              EvOpen inl_file ModeW (Some e)]
    /\ run_script [prog; spv_file; inl_file] w = (1%Z, w').
Proof.
  intros Hsrc Hdst.
  destruct (convert_dest_refused w spv_file inl_file B Hsrc Hdst) as [e He].
  eexists e, _. split; [exact He|]. repeat split.
  unfold run_script, main, bind, argv_get, ret.
  cbn [length Nat.eqb negb lookup list_lookup]. now rewrite He.
Qed.

(** X2: the script ends with status 0 only if it was given exactly two
    arguments, the first naming a file that can be read and the second a
    file that can be opened for writing. *)
Theorem exit_status_zero_only_if (argv : list string) (w : world) :
  fst (run_script argv w) = 0%Z ->
  exists prog spv_file inl_file : string,
    argv = [prog; spv_file; inl_file]
    /\ is_Some (source_bytes w spv_file)
    /\ dest_ok w inl_file = true.
Proof.
  destruct argv as [|prog [|spv_file [|inl_file [|extra rest]]]];
    try discriminate.
  unfold run_script, main, bind, argv_get, ret.
  cbn [length Nat.eqb negb lookup list_lookup].
  destruct (source_bytes w spv_file) as [B|] eqn:Hsrc.
  - destruct (dest_ok w inl_file) eqn:Hdst.
    + intros _. exists prog, spv_file, inl_file. rewrite Hsrc. eauto.
    + destruct (convert_dest_refused _ _ _ _ Hsrc Hdst) as [e ->].
      discriminate.
  - destruct (convert_source_refused w spv_file inl_file Hsrc) as [e ->].
    discriminate.
Qed.

(** X3: a run that returned has changed the content of no file, except
    into the rendering of the bytes it read: every file that had a content
    before has afterwards either that content or the rendering. *)
Theorem only_the_rendering_is_written
        (w w' : world) (spv_file inl_file other : string)
        (B c : list byte) :
  convert_spv_to_inl spv_file inl_file w = (inr tt, w') ->
  source_bytes w spv_file = Some B ->
  file_bytes w other = Some c ->
  file_bytes w' other = Some c
  \/ file_bytes w' other = Some (encode (inl_text B)).
Proof.
  intros Hrun Hsrc Hc.
  destruct (dest_ok w inl_file) eqn:Hdst.
  - rewrite (convert_ok _ _ _ _ Hsrc Hdst) in Hrun.
    injection Hrun as <-. unfold file_bytes in *. cbn [fs].
    destruct (decide (inl_file = other)) as [->|Hne].
    + right. now rewrite lookup_insert_eq.
    + left. now rewrite lookup_insert_ne.
  - destruct (convert_dest_refused _ _ _ _ Hsrc Hdst) as [e He].
    rewrite He in Hrun. discriminate.
Qed.


(** X5: a run on a destination that already holds the rendering of the
    source (as a first run leaves it) returns and leaves every file as it
    was. *)
Theorem rerun_changes_nothing
        (w : world) (spv_file inl_file : string) (B : list byte) :
  source_bytes w spv_file = Some B ->
  dest_ok w inl_file = true ->
  file_bytes w inl_file = Some (encode (inl_text B)) ->
  fst (convert_spv_to_inl spv_file inl_file w) = inr tt
  /\ fs (snd (convert_spv_to_inl spv_file inl_file w)) = fs w.
Proof.
  intros Hsrc Hdst Hheld.
  rewrite (convert_ok _ _ _ _ Hsrc Hdst). cbn [fst snd fs].
  split; [reflexivity|].
  apply insert_id. unfold file_bytes in Hheld. unfold dest_perm.
  destruct (fs w !! inl_file) as [[q c|]|]; try discriminate.
  now injection Hheld as ->.
Qed.

(** X6: two runs that leave the same bytes in their destinations read the
    same bytes from their sources: the rendering loses nothing. *)
Theorem equal_outputs_equal_inputs
        (w1 w2 : world) (spv1 inl1 spv2 inl2 : string) (B1 B2 : list byte) :
  source_bytes w1 spv1 = Some B1 ->
  source_bytes w2 spv2 = Some B2 ->
  dest_ok w1 inl1 = true ->
  dest_ok w2 inl2 = true ->
  output_bytes w1 spv1 inl1 = output_bytes w2 spv2 inl2 ->
  B1 = B2.
Proof.
  intros Hs1 Hs2 Hd1 Hd2.
  rewrite (convert_output_bytes _ _ _ _ Hs1 Hd1).
  rewrite (convert_output_bytes _ _ _ _ Hs2 Hd2).
  intros [= Heq]. unfold encode in Heq.
  apply (f_equal string_of_list_byte) in Heq.
  rewrite !string_of_list_byte_of_string in Heq.
  pose proof (inl_text_read_back B1) as H1.
  rewrite Heq, inl_text_read_back in H1. congruence.
Qed.

(** ** Lines of twelve *)

Section Lines.

Lemma line_start_shift (i : nat) : line_start (i + 12) = line_start i.
Proof.
  unfold line_start. now replace ((i + 12) mod 12) with (i mod 12) by div_lia.
Qed.

(** The loop only looks at its index modulo 12. *)
Lemma for_enumerate_shift (data : list byte) :
  forall i : nat, for_enumerate (i + 12) data "" = for_enumerate i data "".
Proof.
  induction data as [|b data IH]; intros i; [reflexivity|].
  rewrite !for_enumerate_cons, line_start_shift.
  change (S (i + 12)) with (S i + 12). now rewrite IH.
Qed.

Lemma for_enumerate_multiple (k : nat) (data : list byte) :
  for_enumerate (12 * k) data "" = inl_text data.
Proof.
  induction k as [|k IH]; [reflexivity|].
  replace (12 * S k) with (12 * k + 12) by lia.
  now rewrite for_enumerate_shift.
Qed.

Lemma for_enumerate_inside_line (data : list byte) :
  forall i : nat,
    0 < i -> i + length data <= 12 ->
    for_enumerate i data "" = concat_tokens data.
Proof.
  induction data as [|b data IH]; intros i Hpos Hlen; [reflexivity|].
  cbn [length] in Hlen. rewrite for_enumerate_cons, IH by lia.
  unfold line_start.
  replace (i mod 12 =? 0)%nat with false
    by (symmetry; apply Nat.eqb_neq; div_lia).
  reflexivity.
Qed.

Lemma string_forallb_app (P : ascii -> bool) (a b : string) :
  string_forallb P (a +:+ b) = string_forallb P a && string_forallb P b.
Proof.
  induction a as [|c a IH]; [reflexivity|].
  cbn [String.append string_forallb]. rewrite IH. apply andb_assoc.
Qed.

Lemma token_chars (b : byte) : string_forallb output_char (token b) = true.
Proof. destruct b; reflexivity. Qed.

Lemma for_enumerate_chars (data : list byte) :
  forall i : nat,
    string_forallb output_char (for_enumerate i data "") = true.
Proof.
  induction data as [|b data IH]; intros i; [reflexivity|].
  rewrite for_enumerate_cons, !string_forallb_app, token_chars, IH.
  unfold line_start. now destruct (i mod 12 =? 0)%nat.
Qed.

End Lines.

(** X7: when the first part of the input is a whole number of lines (its
    length is a multiple of 12), converting the two parts one after the
    other gives the conversion of the whole: the input can be converted in
    pieces of 12 bytes. *)
Theorem conversion_in_pieces (B1 B2 : list byte) :
  length B1 mod 12 = 0 ->
  inl_text (B1 ++ B2) = inl_text B1 +:+ inl_text B2.
Proof.
  intros Hlen. unfold inl_text at 1. rewrite for_enumerate_app.
  fold (inl_text B1).
  replace (0 + length B1) with (12 * (length B1 / 12)) by div_lia.
  now rewrite for_enumerate_multiple.
Qed.

(** X8: the output of a non-empty input is one line, a newline and four
    spaces followed by the tokens of the first twelve bytes (or of all of
    them, when there are fewer) with nothing between them, and then the
    output of the remaining bytes. *)
Theorem output_line_by_line (B : list byte) :
  B <> [] ->
  inl_text B
  = newline_indent +:+ concat_tokens (take 12 B) +:+ inl_text (drop 12 B).
Proof.
  intros Hne. rewrite <- (take_drop 12 B) at 1.
  unfold inl_text at 1. rewrite for_enumerate_app.
  assert (Hfirst : for_enumerate 0 (take 12 B) ""
                   = newline_indent +:+ concat_tokens (take 12 B)).
  { destruct B as [|b B']; [now destruct Hne|].
    change (take 12 (b :: B')) with (b :: take 11 B').
    rewrite for_enumerate_cons, for_enumerate_inside_line.
    - reflexivity.
    - lia.
    - rewrite length_take. lia. }
  rewrite Hfirst, str_app_assoc. do 2 f_equal.
  rewrite length_take.
  destruct (Nat.le_gt_cases 12 (length B)) as [Hge|Hlt].
  - replace (0 + 12 `min` length B) with (12 * 1) by lia.
    apply for_enumerate_multiple.
  - rewrite drop_ge by lia. reflexivity.
Qed.

(** X9: the output is made of newlines, spaces, commas, the letter [x] and
    lowercase hexadecimal digits, and of no other character. *)
Theorem output_alphabet (B : list byte) :
  string_forallb output_char (inl_text B) = true.
Proof. apply for_enumerate_chars. Qed.

(** X10: the output for an input that is continued is the output for the
    input so far, continued: what has been written is never revised. *)
Theorem output_extends_prefix (B1 B2 : list byte) :
  String.prefix (inl_text B1) (inl_text (B1 ++ B2)) = true.
Proof.
  apply prefix_correct. unfold inl_text at 2. rewrite for_enumerate_app.
  fold (inl_text B1). apply substring_prefix.
Qed.

(** Requests that open the destination while the source is still open are
    not one at a time. *)
Example interleaved_requests_rejected :
  one_at_a_time None
    [EvOpen "a.spv" ModeRB None; EvOpen "a.inl" ModeW None; EvRead "a.spv";
     EvClose "a.spv"; EvWrite "a.inl" []; EvClose "a.inl"] = false
  /\ one_at_a_time None
       [EvOpen "a.spv" ModeRB None; EvRead "a.spv"; EvClose "a.spv";
        EvOpen "a.inl" ModeW None; EvWrite "a.inl" []] = false.
Proof. split; reflexivity. Qed.

(** Two different earlier contents of a destination that is not the source:
    the source delivers the same bytes, and the destination ends up the
    same. *)
Example destination_content_ignored :
  source_bytes (with_content demo_world "old.inl" default_perm [x01; x02])
    "zero.spv" = Some [x00]
  /\ output_bytes (with_content demo_world "old.inl" default_perm [x01; x02])
       "zero.spv" "old.inl"
     = output_bytes demo_world "zero.spv" "old.inl".
Proof. vm_compute. split; reflexivity. Qed.

(** ** The further properties on the sample file system *)

Lemma destination_refused_changes_nothing_witness :
  source_bytes (with_content demo_world "kept.inl" (Perm true false) [x6b])
    "zero.spv" = Some [x00]
  /\ dest_ok (with_content demo_world "kept.inl" (Perm true false) [x6b])
       "kept.inl" = false
  /\ exists (e : errno) (w' : world),
      convert_spv_to_inl "zero.spv" "kept.inl"
        (with_content demo_world "kept.inl" (Perm true false) [x6b])
      = (inl (OSError e), w')
      /\ fs w'
         = fs (with_content demo_world "kept.inl" (Perm true false) [x6b])
      /\ stdout w'
         = stdout (with_content demo_world "kept.inl" (Perm true false) [x6b])
      /\ trace w'
         = trace (with_content demo_world "kept.inl" (Perm true false) [x6b])
           ++ [EvOpen "zero.spv" ModeRB None; EvRead "zero.spv";
               EvClose "zero.spv"; EvOpen "kept.inl" ModeW (Some e)]
      /\ run_script ["convert_spv.py"; "zero.spv"; "kept.inl"]
           (with_content demo_world "kept.inl" (Perm true false) [x6b])
         = (1%Z, w').
Proof.
  assert (H1 : source_bytes
                 (with_content demo_world "kept.inl" (Perm true false) [x6b])
                 "zero.spv" = Some [x00])
    by (vm_compute; reflexivity).
  assert (H2 : dest_ok
                 (with_content demo_world "kept.inl" (Perm true false) [x6b])
                 "kept.inl" = false)
    by (vm_compute; reflexivity).
  exact (conj H1 (conj H2
           (destination_refused_changes_nothing _ "convert_spv.py"
              "zero.spv" "kept.inl" [x00] H1 H2))).
Defined.

Lemma exit_status_zero_only_if_witness :
  fst (run_script ["convert_spv.py"; "zero.spv"; "zero.inl"] demo_world) = 0%Z
  /\ exists prog spv_file inl_file : string,
      ["convert_spv.py"; "zero.spv"; "zero.inl"] = [prog; spv_file; inl_file]
      /\ is_Some (source_bytes demo_world spv_file)
      /\ dest_ok demo_world inl_file = true.
Proof.
  assert (H1 : fst (run_script ["convert_spv.py"; "zero.spv"; "zero.inl"]
                      demo_world) = 0%Z)
    by (vm_compute; reflexivity).
  exact (conj H1 (exit_status_zero_only_if _ demo_world H1)).
Defined.

Lemma only_the_rendering_is_written_witness :
  convert_spv_to_inl "zero.spv" "old.inl" demo_world
  = (inr tt, snd (convert_spv_to_inl "zero.spv" "old.inl" demo_world))
  /\ source_bytes demo_world "zero.spv" = Some [x00]
  /\ file_bytes demo_world "shader.spv" = Some demo_shader
  /\ (file_bytes (snd (convert_spv_to_inl "zero.spv" "old.inl" demo_world))
        "shader.spv" = Some demo_shader
      \/ file_bytes (snd (convert_spv_to_inl "zero.spv" "old.inl" demo_world))
           "shader.spv" = Some (encode (inl_text [x00]))).
Proof.
  assert (H1 : convert_spv_to_inl "zero.spv" "old.inl" demo_world
               = (inr tt,
                  snd (convert_spv_to_inl "zero.spv" "old.inl" demo_world)))
    by (vm_compute; reflexivity).
  assert (H2 : source_bytes demo_world "zero.spv" = Some [x00])
    by (vm_compute; reflexivity).
  assert (H3 : file_bytes demo_world "shader.spv" = Some demo_shader)
    by (vm_compute; reflexivity).
  exact (conj H1 (conj H2 (conj H3
           (only_the_rendering_is_written demo_world _ "zero.spv" "old.inl"
              "shader.spv" [x00] demo_shader H1 H2 H3)))).
Defined.

Lemma rerun_changes_nothing_witness :
  source_bytes
    (snd (convert_spv_to_inl "shader.spv" "old.inl" demo_world))
    "shader.spv" = Some demo_shader
  /\ dest_ok (snd (convert_spv_to_inl "shader.spv" "old.inl" demo_world))
       "old.inl" = true
  /\ file_bytes (snd (convert_spv_to_inl "shader.spv" "old.inl" demo_world))
       "old.inl" = Some (encode (inl_text demo_shader))
  /\ fst (convert_spv_to_inl "shader.spv" "old.inl"
            (snd (convert_spv_to_inl "shader.spv" "old.inl" demo_world)))
     = inr tt
  /\ fs (snd (convert_spv_to_inl "shader.spv" "old.inl"
                (snd (convert_spv_to_inl "shader.spv" "old.inl" demo_world))))
     = fs (snd (convert_spv_to_inl "shader.spv" "old.inl" demo_world)).
Proof.
  assert (H1 : source_bytes
                 (snd (convert_spv_to_inl "shader.spv" "old.inl" demo_world))
                 "shader.spv" = Some demo_shader)
    by (vm_compute; reflexivity).
  assert (H2 : dest_ok
                 (snd (convert_spv_to_inl "shader.spv" "old.inl" demo_world))
                 "old.inl" = true)
    by (vm_compute; reflexivity).
  assert (H3 : file_bytes
                 (snd (convert_spv_to_inl "shader.spv" "old.inl" demo_world))
                 "old.inl" = Some (encode (inl_text demo_shader)))
    by (vm_compute; reflexivity).
  exact (conj H1 (conj H2 (conj H3
           (rerun_changes_nothing _ "shader.spv" "old.inl" demo_shader
              H1 H2 H3)))).
Defined.

Lemma equal_outputs_equal_inputs_witness :
  source_bytes demo_world "zero.spv" = Some [x00]
  /\ source_bytes (with_content demo_world "copy.spv" default_perm [x00])
       "copy.spv" = Some [x00]
  /\ dest_ok demo_world "zero.inl" = true
  /\ dest_ok (with_content demo_world "copy.spv" default_perm [x00])
       "old.inl" = true
  /\ output_bytes demo_world "zero.spv" "zero.inl"
     = output_bytes (with_content demo_world "copy.spv" default_perm [x00])
         "copy.spv" "old.inl"
  /\ [x00] = [x00].
Proof.
  assert (H1 : source_bytes demo_world "zero.spv" = Some [x00])
    by (vm_compute; reflexivity).
  assert (H2 : source_bytes
                 (with_content demo_world "copy.spv" default_perm [x00])
                 "copy.spv" = Some [x00])
    by (vm_compute; reflexivity).
  assert (H3 : dest_ok demo_world "zero.inl" = true)
    by (vm_compute; reflexivity).
  assert (H4 : dest_ok (with_content demo_world "copy.spv" default_perm [x00])
                 "old.inl" = true)
    by (vm_compute; reflexivity).
  assert (H5 : output_bytes demo_world "zero.spv" "zero.inl"
               = output_bytes
                   (with_content demo_world "copy.spv" default_perm [x00])
                   "copy.spv" "old.inl")
    by (vm_compute; reflexivity).
  exact (conj H1 (conj H2 (conj H3 (conj H4 (conj H5
           (equal_outputs_equal_inputs _ _ _ _ _ _ _ _ H1 H2 H3 H4 H5)))))).
Defined.

Lemma conversion_in_pieces_witness :
  length [x00; x01; x02; x03; x04; x05; x06; x07; x08; x09; x0a; x0b] mod 12
  = 0
  /\ inl_text ([x00; x01; x02; x03; x04; x05; x06; x07; x08; x09; x0a; x0b]
               ++ [x0c; x0d])
     = inl_text [x00; x01; x02; x03; x04; x05; x06; x07; x08; x09; x0a; x0b]
       +:+ inl_text [x0c; x0d].
Proof.
  assert (H1 : length [x00; x01; x02; x03; x04; x05; x06; x07; x08; x09;
                       x0a; x0b] mod 12 = 0)
    by reflexivity.
  exact (conj H1 (conversion_in_pieces _ [x0c; x0d] H1)).
Defined.

Lemma output_line_by_line_witness :
  demo_shader <> []
  /\ inl_text demo_shader
     = newline_indent +:+ concat_tokens (take 12 demo_shader)
       +:+ inl_text (drop 12 demo_shader).
Proof.
  assert (H1 : demo_shader <> []) by discriminate.
  exact (conj H1 (output_line_by_line demo_shader H1)).
Defined.

(** X11: called with two arguments, the script prints nothing on standard
    output unless it ends with status 0: the line [Converted ...] never
    follows a conversion that raised. *)
Theorem no_message_on_failure (w : world) (prog spv_file inl_file : string) :
  fst (run_script [prog; spv_file; inl_file] w) <> 0%Z ->
  stdout (snd (run_script [prog; spv_file; inl_file] w)) = stdout w.
Proof.
  unfold run_script, main, bind, argv_get, ret.
  cbn [length Nat.eqb negb lookup list_lookup].
  destruct (source_bytes w spv_file) as [B|] eqn:Hsrc.
  - destruct (dest_ok w inl_file) eqn:Hdst.
    + rewrite (convert_ok _ _ _ _ Hsrc Hdst). unfold print.
      cbn [fst exit_status]. intros Hnz. now destruct Hnz.
    + destruct (convert_dest_refused _ _ _ _ Hsrc Hdst) as [e ->].
      intros _. reflexivity.
  - destruct (convert_source_refused w spv_file inl_file Hsrc) as [e ->].
    intros _. reflexivity.
Qed.

Lemma no_message_on_failure_witness :
  fst (run_script ["convert_spv.py"; "locked.spv"; "old.inl"] demo_world)
  <> 0%Z
  /\ stdout (snd (run_script ["convert_spv.py"; "locked.spv"; "old.inl"]
                    demo_world))
     = stdout demo_world.
Proof.
  assert (H1 : fst (run_script ["convert_spv.py"; "locked.spv"; "old.inl"]
                      demo_world) <> 0%Z)
    by (vm_compute; discriminate).
  exact (conj H1 (no_message_on_failure demo_world "convert_spv.py"
                    "locked.spv" "old.inl" H1)).
Defined.
